(** * salesforce-csv-web-uploader: a shallow embedding of [server.js]

    The server is an Express application whose routes glue together a
    Salesforce client ([jsforce]), a CSV parser ([csv-parse]), a multipart
    upload middleware ([multer]) and the local file system.  The route
    handlers are embedded below as functions over an explicit world (the
    files on disk and the log of remote Salesforce calls); the external
    libraries that decide nothing by themselves are taken as variables of the
    section [Server]. *)

From Stdlib Require Import ZArith Ascii String.
From stdpp Require Import base option list gmap sorting pretty.

Local Open Scope Z_scope.

(** ** JavaScript strings and values *)

(** A JavaScript string is a sequence of UTF-16 code units. *)
Abbreviation jsstring := (list N).

(** [js "abc"] is the JavaScript string literal ['abc'] (ASCII literals). *)
Definition js (s : string) : jsstring :=
  N_of_ascii <$> list_ascii_of_string s.

(** The values that travel through request bodies, CSV rows and the session.
    [VNum] carries integers only: a number is used below only through its
    truthiness, and a JSON number is falsy exactly when it is zero.
    [VObject] stands for any object or array, which is always truthy. *)
Inductive value :=
  | VUndefined
  | VNull
  | VBool (b : bool)
  | VNum (n : Z)
  | VStr (s : jsstring)
  | VObject.

#[global] Instance value_eq_dec : EqDecision value.
Proof. solve_decision. Defined.

(** [!v] is [negb (truthy v)]. *)
Definition truthy (v : value) : bool :=
  match v with
  | VUndefined | VNull => false
  | VBool b => b
  | VNum n => negb (n =? 0)
  | VStr s => negb (bool_decide (s = []))
  | VObject => true
  end.

(** ECMAScript [WhiteSpace] and [LineTerminator] code points, the ones that
    [String.prototype.trim] strips. *)
Definition is_js_space (c : N) : bool :=
  (bool_decide (c ∈ [0x09; 0x0A; 0x0B; 0x0C; 0x0D; 0x20; 0xA0; 0x1680;
                     0x2028; 0x2029; 0x202F; 0x205F; 0x3000; 0xFEFF])
   || ((0x2000 <=? c) && (c <=? 0x200A)))%N.

Fixpoint trimStart (s : jsstring) : jsstring :=
  match s with
  | c :: s' => if is_js_space c then trimStart s' else s
  | [] => []
  end.

(** [s.trim()] *)
Definition trim (s : jsstring) : jsstring :=
  reverse (trimStart (reverse (trimStart s))).

(** ** The CSV data handler (server.js, lines 254-267) *)

(** A row as [csv-parse] delivers it with [columns: true]: an object whose own
    properties are the columns; the list gives them in [Object.keys] order
    together with [row[key]]. *)
Abbreviation row := (list (jsstring * value)).

(** A record of the batch: the own properties of the object [cleanRow], as a
    map from field names to values. *)
Abbreviation record := (gmap jsstring value).

(** [value !== null && value !== undefined && value !== ''] *)
Definition non_empty (v : value) : bool :=
  match v with
  | VNull | VUndefined => false
  | VStr s => negb (bool_decide (s = []))
  | _ => true
  end.

(** [cleanRow[cleanKey] = value] on an object created by [{}].  The name
    [__proto__] is the accessor that [cleanRow] inherits from
    [Object.prototype]: assigning to it runs the setter and creates no own
    property.  Every other name becomes an own property or overwrites it. *)
Definition set_property (cleanKey : jsstring) (value : value)
    (cleanRow : record) : record :=
  if decide (cleanKey = js "__proto__") then cleanRow
  else <[cleanKey := value]> cleanRow.

(** The body of [Object.keys(row).forEach(key => ...)] for one key. *)
Definition clean_column (cleanRow : record) (col : jsstring * value) : record :=
  let cleanKey := trim col.1 in
  let value := col.2 in
  if non_empty value then set_property cleanKey value cleanRow else cleanRow.

Definition cleanRow_of (r : row) : record :=
  foldl clean_column ∅ r.

(** The ['data'] listener: [records] before the event, [records] after it. *)
Definition on_data (records : list record) (r : row) : list record :=
  let cleanRow := cleanRow_of r in
  if decide (0 < size cleanRow)%nat then records ++ [cleanRow] else records.

(** All ['data'] events of one parse, in the order the parser emits them. *)
Definition collect_records (rows : list row) : list record :=
  foldl on_data [] rows.

(** Column [c] writes field [k] of [cleanRow]. *)
Definition writes (k : jsstring) (c : jsstring * value) : Prop :=
  non_empty c.2 = true ∧ trim c.1 = k.

#[global] Instance writes_dec k c : Decision (writes k c).
Proof. unfold writes. apply _. Defined.

(** [v] is the value of the last column of [r] that writes field [k]. *)
Definition last_written (r : row) (k : jsstring) (v : value) : Prop :=
  ∃ pre key post,
    r = pre ++ (key, v) :: post ∧ writes k (key, v) ∧
    Forall (λ c, ¬ writes k c) post.

(** ** The world of a request: files, remote calls, exceptions *)

(** [new Error(message)]; the handlers observe an exception only through its
    [message]. *)
Record exn := Error { message : jsstring }.

(** The credentials a [jsforce.Connection] is constructed with.  Building the
    object is local; only the methods below contact Salesforce. *)
Record connection := Connection { serverUrl : value; sessionId : value }.

(** A remote call made through the Salesforce client, with its arguments. *)
Inductive adapter_call :=
  | Identity (conn : connection)
  | DescribeGlobal (conn : connection)
  | Describe (conn : connection) (objectName : jsstring)
  | Create (conn : connection) (objectName : value) (records : list record)
  | Update (conn : connection) (objectName : value) (records : list record)
  | Upsert (conn : connection) (objectName : value) (records : list record)
           (extIdField : value).

(** [files] maps the path of every existing file to its contents; [calls] is
    the log of remote calls, oldest first. *)
Record world := World {
  files : gmap jsstring jsstring;
  calls : list adapter_call }.

(** A computation that may change the world and either returns or throws. *)
Definition io (A : Type) : Type := world → (exn + A) * world.

#[global] Instance io_ret : MRet io := λ A x w, (inr x, w).
#[global] Instance io_bind : MBind io := λ A B f m w,
  match m w with
  | (inr x, w') => f x w'
  | (inl e, w') => (inl e, w')
  end.
#[global] Instance io_throw : MThrow exn io := λ A e w, (inl e, w).

(** [try { body } catch (error) { handler }] *)
Definition try_catch {A} (body : io A) (handler : exn → io A) : io A := λ w,
  match body w with
  | (inr x, w') => (inr x, w')
  | (inl e, w') => handler e w'
  end.

(** *** [fs] *)

Definition enoent (syscall path : jsstring) : exn :=
  Error (js "ENOENT: no such file or directory, " ++ syscall ++ js " '"
           ++ path ++ js "'").

Definition readFileSync (path : jsstring) : io jsstring := λ w,
  match files w !! path with
  | Some data => (inr data, w)
  | None => (inl (enoent (js "open") path), w)
  end.

Definition existsSync (path : jsstring) : io bool := λ w,
  (inr (bool_decide (is_Some (files w !! path))), w).

Definition unlinkSync (path : jsstring) : io () := λ w,
  match files w !! path with
  | Some _ => (inr (), World (delete path (files w)) (calls w))
  | None => (inl (enoent (js "unlink") path), w)
  end.

Definition writeFile (path data : jsstring) : io () := λ w,
  (inr (), World (<[path := data]> (files w)) (calls w)).

(** *** The Salesforce client *)

Abbreviation user_info := (list (jsstring * value)).

(** An entry of [describeGlobal().sobjects]. *)
Record sobject := SObject {
  sobject_name : jsstring;
  sobject_label : jsstring;
  sobject_custom : bool;
  sobject_createable : bool;
  sobject_updateable : bool }.

(** An entry of [describe(name).fields]. *)
Record field := Field {
  field_name : jsstring;
  field_label : jsstring;
  field_type : jsstring;
  field_nillable : bool;
  field_defaultedOnCreate : bool;
  field_createable : bool;
  field_updateable : bool;
  field_picklistValues : list jsstring }.

(** The outcome of saving one record.  The handler copies [errors] through
    untouched; they are rendered as strings. *)
Record save_result := SaveResult {
  result_id : value;
  result_success : bool;
  result_errors : list jsstring }.

(** [create], [update] and [upsert] resolve to one result object or to an
    array of them. *)
Inductive save_results :=
  | Single (r : save_result)
  | Many (rs : list save_result).

(** What Salesforce answers to each call: it returns ([inr]) or the promise
    is rejected ([inl]). *)
Record adapter := Adapter {
  identity : connection → exn + user_info;
  describeGlobal : connection → exn + list sobject;
  describe : connection → jsstring → exn + list field;
  create : connection → value → list record → exn + save_results;
  update : connection → value → list record → exn + save_results;
  upsert : connection → value → list record → value → exn + save_results }.

(** [await] a remote call: the call is logged, then its outcome is returned
    or thrown. *)
Definition remote {A} (c : adapter_call) (outcome : exn + A) : io A := λ w,
  (outcome, World (files w) (calls w ++ [c])).

(** ** HTTP responses *)

Record object_summary := ObjectSummary {
  name : jsstring; label : jsstring; custom : bool }.

Record field_summary := FieldSummary {
  fs_name : jsstring; fs_label : jsstring; fs_type : jsstring;
  fs_required : bool; fs_picklistValues : list jsstring }.

(** [{ id: f.id, errors: f.errors }] *)
Record failure := Failure {
  failure_id : value; failure_errors : list jsstring }.

Inductive auth_method := oauth | session.

Inductive body :=
  | JsonError (error : jsstring)
  | JsonAuthenticated (userInfo : user_info) (message : jsstring)
  | JsonSessionInfo (sessionId instanceUrl : value) (authMethod : auth_method)
  | JsonObjects (objects : list object_summary)
  | JsonFields (fields : list field_summary)
  | JsonUpload (totalRecords successful failed : nat) (errors : list failure)
  | HtmlErrorPage.

Record response := Response { status : Z; content : body }.

(** [res.json(b)] and [res.status(s).json(b)] *)
Definition json (b : body) : response := Response 200 b.
Definition status_json (s : Z) (b : body) : response := Response s b.

(** [req.session.salesforce] *)
Record salesforce := Salesforce {
  accessToken : value;
  instanceUrl : value;
  userInfo : user_info;
  authMethod : auth_method }.

Definition not_authenticated : response :=
  status_json 401 (JsonError (js "Not authenticated")).

(** ** [Array.prototype.sort] *)

(** [sort comparefn l] is [l.sort(comparefn)].  ECMAScript requires the sort
    to be stable and, for a consistent comparator, to order [a] before [b]
    whenever [comparefn(a, b) < 0]; every such sort returns the list that
    stable insertion returns. *)
Section sort.
Context {A : Type} (comparefn : A → A → Z).

Fixpoint sort_insert (x : A) (l : list A) : list A :=
  match l with
  | [] => [x]
  | y :: l' =>
      if decide (comparefn x y ≤ 0) then x :: l else y :: sort_insert x l'
  end.

Definition sort (l : list A) : list A := foldr sort_insert [] l.
End sort.

(** ** The upload middleware (server.js, lines 29-47) *)

(** The part of the multipart body named [csvFile].  The requests modelled
    are well-formed multipart bodies with at most one file part, which is
    named [csvFile]. *)
Record file_part := FilePart {
  originalname : jsstring;
  mimetype : jsstring;
  data : jsstring }.

(** [req.file] *)
Record file := File { path : jsstring }.

(** [storage.filename]: [Date.now() + '-' + file.originalname] *)
Definition filename (now : N) (part : file_part) : jsstring :=
  js (pretty now) ++ js "-" ++ originalname part.

(** [upload.fileFilter]: [true] accepts the file, [false] is
    [cb(new Error('Only CSV files are allowed'))]. *)
Definition fileFilter (part : file_part) : bool :=
  bool_decide (mimetype part = js "text/csv")
  || bool_decide (js ".csv" `suffix_of` originalname part).

(** [upload.single('csvFile')]: an accepted file is written under [uploads/]
    before the route handler runs; a rejected one is never stored and the
    error is passed to [next]. *)
Definition upload_single (now : N) (part : option file_part) : io (option file) :=
  match part with
  | None => mret None
  | Some part =>
      if fileFilter part then
        let path := js "uploads/" ++ filename now part in
        writeFile path (data part);; mret (Some (File path))
      else mthrow (Error (js "Only CSV files are allowed"))
  end.

(** Where [upload.single] stages the file of a request. *)
Definition staged_path (now : N) (part : file_part) : jsstring :=
  js "uploads/" ++ filename now part.

(** ** The routes *)

Section Server.
(** The Salesforce organisation behind [jsforce]. *)
Variable sf : adapter.
(** [csv.parse(csvData, {columns: true, skip_empty_lines: true, trim: true})]:
    the rows of the ['data'] events in order, followed by ['end'] ([None])
    or by ['error'] ([Some e]). *)
Variable csv_parse : jsstring → list row * option exn.
(** [a.localeCompare(b)] in the locale of the host. *)
Variable localeCompare : jsstring → jsstring → Z.

(** [POST /api/auth/session]; the second component is
    [req.session.salesforce] after the request. *)
Definition auth_session (sessionId instanceUrl : value)
    (sess : option salesforce) : io (response * option salesforce) :=
  if negb (truthy sessionId) || negb (truthy instanceUrl) then
    mret (status_json 400
            (JsonError (js "Session ID and Instance URL are required")), sess)
  else
    try_catch
      (let conn := Connection instanceUrl sessionId in
       userInfo ← remote (Identity conn) (identity sf conn);
       mret (json (JsonAuthenticated userInfo
                     (js "Successfully authenticated with session ID")),
             Some (Salesforce sessionId instanceUrl userInfo session)))
      (λ error,
         mret (status_json 401
                 (JsonError (js "Invalid session ID or instance URL. Please check your credentials.")),
               sess)).

(** [GET /api/auth/session-info] *)
Definition session_info (sess : option salesforce) : io response :=
  match sess with
  | None => mret not_authenticated
  | Some s =>
      mret (json (JsonSessionInfo (accessToken s) (instanceUrl s)
                    (authMethod s)))
  end.

(** [GET /api/salesforce/objects] *)
Definition objects (sess : option salesforce) : io response :=
  match sess with
  | None => mret not_authenticated
  | Some s =>
      try_catch
        (let conn := Connection (instanceUrl s) (accessToken s) in
         sobjects ← remote (DescribeGlobal conn) (describeGlobal sf conn);
         let customObjects :=
           sort (λ a b, localeCompare (label a) (label b))
             ((λ obj, ObjectSummary (sobject_name obj) (sobject_label obj)
                        (sobject_custom obj))
              <$> filter (λ obj, sobject_createable obj
                                 && sobject_updateable obj) sobjects) in
         mret (json (JsonObjects customObjects)))
        (λ error,
           mret (status_json 500
                   (JsonError (js "Failed to fetch Salesforce objects"))))
  end.

(** [GET /api/salesforce/objects/:objectName/fields] *)
Definition object_fields (objectName : jsstring)
    (sess : option salesforce) : io response :=
  match sess with
  | None => mret not_authenticated
  | Some s =>
      try_catch
        (let conn := Connection (instanceUrl s) (accessToken s) in
         objectDesc ← remote (Describe conn objectName)
                             (describe sf conn objectName);
         let fields :=
           sort (λ a b, localeCompare (fs_label a) (fs_label b))
             ((λ f, FieldSummary (field_name f) (field_label f)
                      (field_type f)
                      (negb (field_nillable f)
                       && negb (field_defaultedOnCreate f))
                      (field_picklistValues f))
              <$> filter (λ f, field_createable f || field_updateable f)
                    objectDesc) in
         mret (json (JsonFields fields)))
        (λ error,
           mret (status_json 500
                   (JsonError (js "Failed to fetch object fields"))))
  end.

(** The promise around [csv.parse] (lines 246-270): every ['data'] event
    runs the listener; ['end'] resolves and ['error'] rejects. *)
Definition parse (csvData : jsstring) : io (list record) :=
  let records := collect_records (csv_parse csvData).1 in
  match (csv_parse csvData).2 with
  | None => mret records
  | Some e => mthrow e
  end.

(** The [switch (operation)] of lines 278-293. *)
Definition perform (conn : connection)
    (objectName operation externalIdField : value)
    (records : list record) : io save_results :=
  if decide (operation = VStr (js "insert")) then
    remote (Create conn objectName records)
           (create sf conn objectName records)
  else if decide (operation = VStr (js "update")) then
    remote (Update conn objectName records)
           (update sf conn objectName records)
  else if decide (operation = VStr (js "upsert")) then
    (if truthy externalIdField then mret ()
     else mthrow (Error (js "External ID field is required for upsert operation")));;
    remote (Upsert conn objectName records externalIdField)
           (upsert sf conn objectName records externalIdField)
  else mthrow (Error (js "Invalid operation")).

(** [Array.isArray(result) ? result : [result]] *)
Definition results_of (result : save_results) : list save_result :=
  match result with
  | Single r => [r]
  | Many rs => rs
  end.

(** Lines 298-312. *)
Definition summary (records : list record) (result : save_results) : body :=
  let results := results_of result in
  let successful := length (filter (λ r, result_success r) results) in
  let failed := filter (λ r, negb (result_success r)) results in
  JsonUpload (length records) successful (length failed)
    ((λ f, Failure (result_id f) (result_errors f)) <$> failed).

(** The handler of [POST /api/upload] (lines 227-324), run after the upload
    middleware has set [req.file]. *)
Definition upload_handler (sess : option salesforce) (file : option file)
    (objectName operation externalIdField : value) : io response :=
  match sess with
  | None => mret not_authenticated
  | Some s =>
      match file with
      | None => mret (status_json 400 (JsonError (js "No file uploaded")))
      | Some file =>
          try_catch
            (let conn := Connection (instanceUrl s) (accessToken s) in
             csvData ← readFileSync (path file);
             records ← parse csvData;
             (if decide (length records = 0%nat) then
                mthrow (Error (js "No valid records found in CSV file"))
              else mret ());;
             result ← perform conn objectName operation externalIdField
                        records;
             unlinkSync (path file);;
             mret (json (summary records result)))
            (λ error,
               staged ← existsSync (path file);
               (if (staged : bool) then unlinkSync (path file) else mret ());;
               mret (status_json 500 (JsonError (message error))))
      end
  end.

(** A request to [POST /api/upload]. *)
Record upload_request := UploadRequest {
  req_session : option salesforce;
  req_csvFile : option file_part;
  req_objectName : value;
  req_operation : value;
  req_externalIdField : value;
  req_now : N }.

(** [app.post('/api/upload', upload.single('csvFile'), handler)]: the
    middleware runs first; when it passes an error to [next] the handler is
    skipped and the default error handler of Express answers 500. *)
Definition upload (req : upload_request) : io response := λ w,
  match upload_single (req_now req) (req_csvFile req) w with
  | (inr file, w') =>
      upload_handler (req_session req) file (req_objectName req)
        (req_operation req) (req_externalIdField req) w'
  | (inl err, w') => (inr (Response 500 HtmlErrorPage), w')
  end.
End Server.

(** ** The session routes that need no Salesforce call *)

(** The bodies of [/api/auth/status] and [/api/auth/logout] (both answered
    with [res.json], status 200) and the redirects of the OAuth callback. *)
Inductive session_reply :=
  | JsonStatus (authenticated : bool) (userInfo : option user_info)
               (authMethod : option auth_method)
  | JsonSuccess
  | Redirect (location : jsstring).

(** [GET /api/auth/status] *)
Definition auth_status (sess : option salesforce) : session_reply :=
  match sess with
  | Some s => JsonStatus true (Some (userInfo s)) (Some (authMethod s))
  | None => JsonStatus false None None
  end.

(** [POST /api/auth/logout]: [req.session.destroy()] drops the whole session;
    the second component is [req.session.salesforce] afterwards. *)
Definition auth_logout (sess : option salesforce)
    : session_reply * option salesforce :=
  (JsonSuccess, None).

(** What [conn.authorize(code)] leaves behind when it resolves:
    [conn.accessToken], [conn.instanceUrl] and the user info. *)
Record authorized := Authorized {
  oauth_accessToken : value;
  oauth_instanceUrl : value;
  oauth_userInfo : user_info }.

(** [GET /oauth/callback]; the code exchange [authorize] is the only thing
    the route does outside the session, and its outcome is a parameter. *)
Definition oauth_callback (authorize : value → exn + authorized)
    (code : value) (sess : option salesforce)
    : session_reply * option salesforce :=
  match authorize code with
  | inr conn =>
      (Redirect (js "/?auth=success"),
       Some (Salesforce (oauth_accessToken conn) (oauth_instanceUrl conn)
               (oauth_userInfo conn) oauth))
  | inl error => (Redirect (js "/?auth=error"), sess)
  end.

(** ** Sample inputs *)

(** The rows of the file
    [Name,Email / Alice,a@x.com / ,b@x.com / ,] as the parser delivers them. *)
Definition sample_rows : list row :=
  [ [(js "Name", VStr (js "Alice")); (js "Email", VStr (js "a@x.com"))];
    [(js "Name", VStr (js "")); (js "Email", VStr (js "b@x.com"))];
    [(js "Name", VStr (js "")); (js "Email", VStr (js ""))] ].


(** A world with no file and no call yet. *)
Definition fresh : world := World ∅ [].

(** An organisation that cannot be reached: every call is rejected. *)
Definition offline : adapter :=
  let refused := Error (js "connect ECONNREFUSED") in
  Adapter (λ _, inl refused) (λ _, inl refused) (λ _ _, inl refused)
    (λ _ _ _, inl refused) (λ _ _ _, inl refused) (λ _ _ _ _, inl refused).

(** An organisation that saves every record but the second of an update,
    which it reports as a duplicate. *)
Definition saved : save_result := SaveResult (VStr (js "003a")) true [].
Definition duplicate : save_result :=
  SaveResult (VStr (js "003x")) false [js "DUPLICATE_VALUE"].

Definition sample_org : adapter :=
  Adapter (λ _, inr [(js "username", VStr (js "alice@x.com"))])
    (λ _, inr []) (λ _ _, inr [])
    (λ _ _ records, inr (Many ((λ _, saved) <$> records)))
    (λ _ _ _, inr (Many [saved; duplicate; saved]))
    (λ _ _ _ _, inr (Single saved)).

(** A parser run that emits three rows with an [Id]. *)
Definition three_rows (csvData : jsstring) : list row * option exn :=
  ([ [(js "Id", VStr (js "003a")); (js "Email", VStr (js "a@x.com"))];
     [(js "Id", VStr (js "003x")); (js "Email", VStr (js "b@x.com"))];
     [(js "Id", VStr (js "003b")); (js "Email", VStr (js "c@x.com"))] ], None).

(** A parser run that emits one row without any value. *)
Definition blank_row (csvData : jsstring) : list row * option exn :=
  ([ [(js "Name", VStr (js "")); (js "Email", VStr (js ""))] ], None).

Definition sample_session : salesforce :=
  Salesforce (VStr (js "00D!AQ")) (VStr (js "https://na1.salesforce.com"))
    [(js "username", VStr (js "alice@x.com"))] session.

Definition contacts_csv : file_part :=
  FilePart (js "contacts.csv") (js "text/csv") (js "Id,Email").

Definition notes_txt : file_part :=
  FilePart (js "notes.txt") (js "text/plain") (js "hello").

(** A comparison by code units, the collation of a host without locale
    data. *)
Fixpoint code_unit_compare (a b : jsstring) : Z :=
  match a, b with
  | [], [] => 0
  | [], _ :: _ => -1
  | _ :: _, [] => 1
  | x :: a', y :: b' =>
      if decide (x < y)%N then -1
      else if decide (y < x)%N then 1
      else code_unit_compare a' b'
  end.

(** An organisation with three objects, one of them read-only. *)
Definition three_objects : adapter :=
  Adapter (λ _, inl (Error (js "INVALID_SESSION_ID")))
    (λ _, inr [ SObject (js "Contact") (js "Contact") false true true;
                SObject (js "Account") (js "Account") false true true;
                SObject (js "Audit__c") (js "Audit") true true false ])
    (λ _ _, inr [])
    (λ _ _ _, inr (Many [])) (λ _ _ _, inr (Many []))
    (λ _ _ _ _, inr (Many [])).

(** A parser run that emits one row and then fails. *)
Definition broken_after_one_row (csvData : jsstring) : list row * option exn :=
  ([ [(js "Id", VStr (js "003a")); (js "Email", VStr (js "a@x.com"))] ],
   Some (Error (js "Invalid Record Length"))).

(** A world in which an earlier upload was left behind. *)
Definition earlier_upload : world :=
  World {[ js "uploads/1600000000000-old.csv" := js "Id,Name" ]} [].

(** An organisation whose [Contact] has a read-only field, a required one
    and an optional one. *)
Definition contact_fields : list field :=
  [ Field (js "LastName") (js "Last Name") (js "string") false false true true [];
    Field (js "CreatedDate") (js "Created Date") (js "datetime") false true
      false false [];
    Field (js "Email") (js "Email") (js "email") true false true true [] ].

Definition contact_org : adapter :=
  Adapter (λ _, inr [(js "username", VStr (js "alice@x.com"))])
    (λ _, inl (Error (js "REQUEST_LIMIT_EXCEEDED")))
    (λ _ objectName,
       if decide (objectName = js "Contact") then inr contact_fields
       else inl (Error (js "NOT_FOUND")))
    (λ _ _ _, inr (Many [])) (λ _ _ _, inr (Many []))
    (λ _ _ _ _, inr (Many [])).

(** The same organisation as [three_objects], describing its objects in
    another order. *)
Definition three_objects_reordered : adapter :=
  Adapter (λ _, inl (Error (js "INVALID_SESSION_ID")))
    (λ _, inr [ SObject (js "Account") (js "Account") false true true;
                SObject (js "Contact") (js "Contact") false true true;
                SObject (js "Audit__c") (js "Audit") true true false ])
    (λ _ _, inr [])
    (λ _ _ _, inr (Many [])) (λ _ _ _, inr (Many []))
    (λ _ _ _ _, inr (Many [])).

(** A code exchange that succeeds for one code only. *)
Definition sample_authorize (code : value) : exn + authorized :=
  if decide (code = VStr (js "aPrx")) then
    inr (Authorized (VStr (js "00D!AR")) (VStr (js "https://na1.salesforce.com"))
           [(js "id", VStr (js "005x"))])
  else inl (Error (js "invalid_grant")).

(** * Verification *)

(** ** The data handler *)

(** The scenario of the specification: header [Name,Email], rows
    [Alice,a@x.com], [,b@x.com] and an empty one. *)
Example scenario_rows :
  collect_records sample_rows
  = [ {[ js "Name" := VStr (js "Alice"); js "Email" := VStr (js "a@x.com") ]};
      {[ js "Email" := VStr (js "b@x.com") ]} ].
Proof. vm_compute. reflexivity. Qed.

(** A byte order mark in front of the first header name is trimmed away, so
    the two columns below write the same field and the later one stays. *)
Example trimmed_names_collide :
  cleanRow_of [ (0xFEFF%N :: js "Id", VStr (js "1")); (js "Id", VStr (js "2")) ]
  = {[ js "Id" := VStr (js "2") ]}.
Proof. vm_compute. reflexivity. Qed.

(** A header name that trims to [__proto__] gives no field: the assignment
    runs the inherited setter, and a row with nothing else is dropped. *)
Example proto_header_dropped :
  on_data [] [ (0xFEFF%N :: js "__proto__", VStr (js "x")) ] = [].
Proof. vm_compute. reflexivity. Qed.

Lemma clean_column_lookup m c k :
  clean_column m c !! k
  = if decide (writes k c ∧ k ≠ js "__proto__") then Some c.2 else m !! k.
Proof.
  unfold clean_column, set_property. destruct c as [key v]; simpl.
  destruct (decide (writes k (key, v) ∧ k ≠ js "__proto__"))
    as [[[Hv <-] Hk]|Hn]; simpl in *.
  - by rewrite Hv, decide_False, lookup_insert_eq.
  - destruct (non_empty v) eqn:Hv; [|done]. case_decide as Hp; [done|].
    rewrite lookup_insert_ne; [done|]. intros <-. apply Hn. by repeat split.
Qed.

Lemma last_written_snoc r c k v :
  last_written (r ++ [c]) k v ↔
  (writes k c ∧ v = c.2) ∨ (¬ writes k c ∧ last_written r k v).
Proof.
  split.
  - intros (pre & key & post & Heq & Hw & Hpost).
    destruct (decide (post = [])) as [->|Hne].
    + apply app_inj_tail in Heq as [-> ->]. by left.
    + destruct (exists_last Hne) as (post' & c' & ->).
      rewrite app_comm_cons, app_assoc in Heq.
      apply app_inj_tail in Heq as [-> ->].
      apply Forall_app in Hpost as [Hpost Hc].
      right. split; [by inversion Hc|].
      by exists pre, key, post'.
  - intros [[Hw ->]|[Hn (pre & key & post & -> & Hw & Hpost)]].
    + exists r, c.1, []. destruct c; simpl. split_and!; [done|done|constructor].
    + exists pre, key, (post ++ [c]). rewrite <-app_assoc. simpl.
      split_and!; [done|done|]. apply Forall_app. split; [done|].
      by constructor.
Qed.

Lemma foldl_clean_column_lookup m r k v :
  foldl clean_column m r !! k = Some v ↔
  (k ≠ js "__proto__" ∧ last_written r k v) ∨
  ((k = js "__proto__" ∨ Forall (λ c, ¬ writes k c) r) ∧ m !! k = Some v).
Proof.
  induction r as [|c r IH] using rev_ind.
  - simpl. split.
    + intros ?. right. split; [by right|done].
    + intros [[_ (pre & key & post & Heq & _)]|[_ ?]]; [|done].
      by destruct pre.
  - rewrite foldl_app. simpl. rewrite clean_column_lookup.
    rewrite last_written_snoc, Forall_app, Forall_singleton.
    destruct (decide (writes k c ∧ k ≠ js "__proto__")) as [[Hw Hk]|Hn].
    + split.
      * intros [= <-]. left. split; [done|]. by left.
      * intros [[_ [[_ ->]|[? _]]]|[[?|[_ ?]] _]]; done.
    + rewrite IH. destruct (decide (k = js "__proto__")) as [Hk|Hk].
      * tauto.
      * assert (¬ writes k c) by tauto. tauto.
Qed.

(** The fields of the cleaned row are its last-written non-empty columns,
    those under [__proto__] left out. *)
Lemma cleanRow_of_lookup r k v :
  cleanRow_of r !! k = Some v ↔ k ≠ js "__proto__" ∧ last_written r k v.
Proof.
  unfold cleanRow_of. rewrite foldl_clean_column_lookup, lookup_empty.
  split; [intros [?|[_ ?]]; done | by left].
Qed.

Lemma last_written_inv r k v :
  last_written r k v → ∃ key, (key, v) ∈ r ∧ trim key = k ∧ non_empty v = true.
Proof.
  intros (pre & key & post & -> & [Hv Hk] & _). exists key.
  split_and!; [|done..]. apply elem_of_app. right. by left.
Qed.



Lemma on_data_app records r :
  on_data records r = records ++ on_data [] r.
Proof. unfold on_data. case_decide; [done|]. by rewrite app_nil_r. Qed.

Lemma collect_records_concat rows :
  collect_records rows = concat (on_data [] <$> rows).
Proof.
  unfold collect_records.
  induction rows as [|r rows IH] using rev_ind; [done|].
  rewrite foldl_app, fmap_app, concat_app. simpl.
  rewrite on_data_app, IH. by rewrite app_nil_r.
Qed.



(** With pairwise distinct trimmed header names, the fields of the cleaned row
    are exactly the non-empty columns, those under [__proto__] left out. *)
Lemma cleanRow_of_lookup_NoDup r k v :
  NoDup (trim ∘ fst <$> r) →
  cleanRow_of r !! k = Some v ↔
  k ≠ js "__proto__" ∧
  ∃ key, (key, v) ∈ r ∧ trim key = k ∧ non_empty v = true.
Proof.
  intros Hnd. rewrite cleanRow_of_lookup.
  apply and_iff_compat_l. split; [apply last_written_inv|].
  intros (key & Hin & Hk & Hv).
  apply list_elem_of_split in Hin as (pre & post & ->).
  exists pre, key, post. split_and!; [done|by split|].
  rewrite fmap_app, fmap_cons in Hnd. apply NoDup_app in Hnd as (_ & _ & Hnd).
  apply NoDup_cons in Hnd as [Hnotin _]. simpl in Hnotin.
  apply Forall_forall. intros c Hc [_ Hc']. apply Hnotin.
  apply list_elem_of_fmap. exists c. split; [|done]. simpl. congruence.
Qed.




(** ** The upload route, step by step *)

Section upload_steps.
Context (sf : adapter) (csv_parse : jsstring → list row * option exn).

Lemma upload_single_accepted now part w :
  fileFilter part = true →
  upload_single now (Some part) w
    = (inr (Some (File (staged_path now part))),
       World (<[staged_path now part := data part]> (files w)) (calls w)).
Proof. intros Hf. unfold upload_single. by rewrite Hf. Qed.

Lemma upload_single_rejected now part w :
  fileFilter part = false →
  upload_single now (Some part) w
    = (inl (Error (js "Only CSV files are allowed")), w).
Proof. intros Hf. unfold upload_single. by rewrite Hf. Qed.

(** [perform] leaves the files alone. *)
Lemma perform_files conn objectName operation externalIdField records w :
  files (perform sf conn objectName operation externalIdField records w).2
    = files w.
Proof.
  unfold perform. repeat case_decide; try done.
  unfold mbind, io_bind. by destruct (truthy externalIdField).
Qed.

(** What the handler answers once the file is staged: every failure goes
    through the [catch] block, which removes the file. *)
Lemma upload_handler_staged s p objectName operation externalIdField w csvData :
  files w !! p = Some csvData →
  upload_handler sf csv_parse (Some s) (Some (File p)) objectName operation
    externalIdField w =
  let failed e calls' :=
    (inr (status_json 500 (JsonError (message e))),
     World (delete p (files w)) calls') in
  let records := collect_records (csv_parse csvData).1 in
  match (csv_parse csvData).2 with
  | Some e => failed e (calls w)
  | None =>
      if decide (length records = 0%nat) then
        failed (Error (js "No valid records found in CSV file")) (calls w)
      else
        match perform sf (Connection (instanceUrl s) (accessToken s))
                objectName operation externalIdField records w with
        | (inr result, w') =>
            (inr (json (summary records result)),
             World (delete p (files w)) (calls w'))
        | (inl e, w') => failed e (calls w')
        end
  end.
Proof.
  intros Hfile. destruct w as [fs cs]; cbn [files calls] in *.
  assert (Hcatch : ∀ e calls',
    (staged ← existsSync p;
     (if (staged : bool) then unlinkSync p else mret ());;
     mret (status_json 500 (JsonError (message e))))
      (World fs calls')
    = (inr (status_json 500 (JsonError (message e))),
       World (delete p fs) calls')).
  { intros e calls'.
    cbv [mbind io_bind existsSync unlinkSync mret io_ret files calls].
    rewrite bool_decide_true by eauto. by rewrite Hfile. }
  cbv [upload_handler try_catch parse path mbind io_bind readFileSync files].
  rewrite Hfile. cbv zeta.
  destruct (csv_parse csvData).2 as [e|].
  { cbv [mthrow io_throw]. apply Hcatch. }
  cbv [mret io_ret].
  destruct (decide (length (collect_records (csv_parse csvData).1) = 0%nat)).
  { cbv [mthrow io_throw]. apply Hcatch. }
  pose proof (perform_files (Connection (instanceUrl s) (accessToken s))
    objectName operation externalIdField
    (collect_records (csv_parse csvData).1) (World fs cs)) as Hfiles.
  destruct (perform _ _ _ _ _ _ (World fs cs)) as [[e|result] [fs' cs']];
    cbn [files calls snd] in *; subst fs'.
  - apply Hcatch.
  - cbv [unlinkSync files calls]. by rewrite Hfile.
Qed.
End upload_steps.

Section upload_route.
Context (sf : adapter) (csv_parse : jsstring → list row * option exn).

(** [perform] makes at most one remote call, the one its [switch] selects. *)
Lemma perform_unfold conn objectName operation externalIdField records w :
  perform sf conn objectName operation externalIdField records w =
  if decide (operation = VStr (js "insert")) then
    (create sf conn objectName records,
     World (files w) (calls w ++ [Create conn objectName records]))
  else if decide (operation = VStr (js "update")) then
    (update sf conn objectName records,
     World (files w) (calls w ++ [Update conn objectName records]))
  else if decide (operation = VStr (js "upsert")) then
    if truthy externalIdField then
      (upsert sf conn objectName records externalIdField,
       World (files w)
         (calls w ++ [Upsert conn objectName records externalIdField]))
    else
      (inl (Error (js "External ID field is required for upsert operation")),
       w)
  else (inl (Error (js "Invalid operation")), w).
Proof.
  unfold perform. repeat case_decide; try done.
  unfold mbind, io_bind. by destruct (truthy externalIdField).
Qed.

(** The whole route, by cases on the request. *)
Lemma upload_unfold req w :
  upload sf csv_parse req w =
  match req_csvFile req with
  | None =>
      match req_session req with
      | None => (inr not_authenticated, w)
      | Some _ =>
          (inr (status_json 400 (JsonError (js "No file uploaded"))), w)
      end
  | Some part =>
      let p := staged_path (req_now req) part in
      let staged := World (<[p := data part]> (files w)) (calls w) in
      if fileFilter part then
        match req_session req with
        | None => (inr not_authenticated, staged)
        | Some s =>
            let failed e calls' :=
              (inr (status_json 500 (JsonError (message e))),
               World (delete p (files w)) calls') in
            let records := collect_records (csv_parse (data part)).1 in
            match (csv_parse (data part)).2 with
            | Some e => failed e (calls w)
            | None =>
                if decide (length records = 0%nat) then
                  failed (Error (js "No valid records found in CSV file"))
                    (calls w)
                else
                  match perform sf
                          (Connection (instanceUrl s) (accessToken s))
                          (req_objectName req) (req_operation req)
                          (req_externalIdField req) records staged with
                  | (inr result, w') =>
                      (inr (json (summary records result)),
                       World (delete p (files w)) (calls w'))
                  | (inl e, w') => failed e (calls w')
                  end
            end
        end
      else (inr (Response 500 HtmlErrorPage), w)
  end.
Proof.
  unfold upload. destruct (req_csvFile req) as [part|].
  - destruct (fileFilter part) eqn:Hf.
    + rewrite upload_single_accepted by done.
      destruct (req_session req) as [s|]; [|done].
      rewrite (upload_handler_staged _ _ _ _ _ _ _ _ (data part))
        by apply lookup_insert_eq.
      cbn [files calls]. by rewrite delete_insert_eq.
    + by rewrite upload_single_rejected.
  - by destruct (req_session req).
Qed.

(** X17.  An authenticated upload removes the file it staged, whatever the
    outcome. *)
Lemma upload_authenticated_removes_file s part objectName operation
    externalIdField now w :
  fileFilter part = true →
  ∃ resp w',
    upload sf csv_parse
      (UploadRequest (Some s) (Some part) objectName operation
         externalIdField now) w = (inr resp, w') ∧
    files w' !! staged_path now part = None.
Proof.
  intros Hf. rewrite upload_unfold. cbn [req_csvFile req_session req_now].
  rewrite Hf. cbv zeta.
  repeat match goal with
         | |- context [match ?x with _ => _ end] => destruct x
         end;
    eexists _, _; (split; [reflexivity|]); apply lookup_delete_eq.
Qed.
End upload_route.

(** ** The claims about [POST /api/upload] *)

(** C2.  The early return of the authentication check leaves the staged file
    on disk: an unauthenticated upload of an accepted file is answered 401
    and the file written by the upload middleware still exists afterwards
    (the authenticated paths remove it, see
    [upload_authenticated_removes_file]). *)
Theorem upload_unauthenticated_leaves_file (sf : adapter)
    (csv_parse : jsstring → list row * option exn) (part : file_part)
    (objectName operation externalIdField : value) (now : N) (w : world) :
  fileFilter part = true →
  ∃ w',
    upload sf csv_parse
      (UploadRequest None (Some part) objectName operation externalIdField now)
      w = (inr not_authenticated, w') ∧
    files w' !! staged_path now part = Some (data part).
Proof.
  intros Hf. rewrite upload_unfold. cbn [req_csvFile req_session req_now].
  rewrite Hf. eexists. split; [reflexivity|]. apply lookup_insert_eq.
Qed.

Lemma upload_unauthenticated_leaves_file_witness :
  fileFilter contacts_csv = true ∧
  ∃ w',
    upload offline blank_row
      (UploadRequest None (Some contacts_csv) (VStr (js "Contact"))
         (VStr (js "insert")) VUndefined 1700000000000) fresh
      = (inr not_authenticated, w') ∧
    files w' !! staged_path 1700000000000 contacts_csv
      = Some (data contacts_csv).
Proof.
  split; [reflexivity|].
  apply (upload_unauthenticated_leaves_file offline blank_row contacts_csv).
  reflexivity.
Defined.

(** C3, as stated, fails: an unauthenticated upload of a file that the upload
    filter rejects is answered 500 by the default error handler, because the
    upload middleware runs before the authentication check. *)
Lemma unauthenticated_upload_rejected_file :
  req_session (UploadRequest None (Some notes_txt) (VStr (js "Contact"))
                 (VStr (js "insert")) VUndefined 1700000000000) = None ∧
  ∃ resp w',
    upload offline blank_row
      (UploadRequest None (Some notes_txt) (VStr (js "Contact"))
         (VStr (js "insert")) VUndefined 1700000000000) fresh
      = (inr resp, w') ∧
    status resp = 500 ∧ status resp ≠ 401.
Proof. split; [reflexivity|]. eexists _, _. by split_and!. Qed.

(** C3, amended.  Without an authenticated session, session-info, the object
    list and the field list answer 401 and leave the world as it is; an
    upload answers 401 when the upload middleware lets the request through
    (no file, or a file that passes the CSV filter) and 500 when the filter
    rejects the file; in every case no remote call is made. *)
Theorem unauthenticated_requests (sf : adapter)
    (csv_parse : jsstring → list row * option exn)
    (localeCompare : jsstring → jsstring → Z) (w : world) :
  session_info None w = (inr not_authenticated, w) ∧
  objects sf localeCompare None w = (inr not_authenticated, w) ∧
  (∀ objectName,
     object_fields sf localeCompare objectName None w
       = (inr not_authenticated, w)) ∧
  (∀ part objectName operation externalIdField now,
     ∃ resp w',
       upload sf csv_parse
         (UploadRequest None part objectName operation externalIdField now) w
         = (inr resp, w') ∧
       calls w' = calls w ∧
       resp = match part with
              | Some part =>
                  if fileFilter part then not_authenticated
                  else Response 500 HtmlErrorPage
              | None => not_authenticated
              end) ∧
  status not_authenticated = 401.
Proof.
  split_and!; try done.
  intros part objectName operation externalIdField now.
  rewrite upload_unfold. cbn [req_csvFile req_session req_now].
  destruct part as [part|]; [destruct (fileFilter part)|];
    eexists _, _; by split_and!.
Qed.

(** C5, as stated, fails on the message: the error of an empty batch reads
    ['No valid records found in CSV file']. *)
Lemma empty_batch_message :
  collect_records (blank_row (data contacts_csv)).1 = [] ∧
  ∃ w',
    upload offline blank_row
      (UploadRequest (Some sample_session) (Some contacts_csv)
         (VStr (js "Contact")) (VStr (js "insert")) VUndefined 1700000000000)
      fresh
      = (inr (Response 500
                (JsonError (js "No valid records found in CSV file"))), w') ∧
    js "No valid records found in CSV file" ≠ js "No valid records found".
Proof.
  split; [reflexivity|]. rewrite upload_unfold.
  eexists. split; [reflexivity|]. by vm_compute.
Qed.

(** C5, amended.  When the parser reaches the end of an accepted file and the
    cleaned batch is empty, an authenticated upload is answered 500 with the
    error message ['No valid records found in CSV file'], the staged file is
    removed and no remote call is made. *)
Theorem empty_batch_rejected (sf : adapter)
    (csv_parse : jsstring → list row * option exn) (s : salesforce)
    (part : file_part) (objectName operation externalIdField : value)
    (now : N) (w : world) :
  fileFilter part = true →
  (csv_parse (data part)).2 = None →
  collect_records (csv_parse (data part)).1 = [] →
  upload sf csv_parse
    (UploadRequest (Some s) (Some part) objectName operation externalIdField
       now) w
  = (inr (Response 500 (JsonError (js "No valid records found in CSV file"))),
     World (delete (staged_path now part) (files w)) (calls w)).
Proof.
  intros Hf Hend Hnil. rewrite upload_unfold.
  cbn [req_csvFile req_session req_now]. rewrite Hf, Hend, Hnil. cbv zeta.
  by rewrite decide_True.
Qed.

Lemma empty_batch_rejected_witness :
  fileFilter contacts_csv = true ∧
  (blank_row (data contacts_csv)).2 = None ∧
  collect_records (blank_row (data contacts_csv)).1 = [] ∧
  upload sample_org blank_row
    (UploadRequest (Some sample_session) (Some contacts_csv)
       (VStr (js "Contact")) (VStr (js "insert")) VUndefined 1700000000000)
    fresh
  = (inr (Response 500 (JsonError (js "No valid records found in CSV file"))),
     World (delete (staged_path 1700000000000 contacts_csv) (files fresh))
       (calls fresh)).
Proof.
  split_and!; [reflexivity..|].
  apply (empty_batch_rejected sample_org blank_row); reflexivity.
Defined.

(** C6.  An authenticated upsert without an external id field (absent, or
    any other falsy value) is answered with an error status, 400 when no file
    came with the request and 500 otherwise, and never with the upload
    summary; the log of remote calls is unchanged. *)
Theorem upsert_requires_externalIdField (sf : adapter)
    (csv_parse : jsstring → list row * option exn) (s : salesforce)
    (part : option file_part) (objectName externalIdField : value) (now : N)
    (w : world) :
  truthy externalIdField = false →
  ∃ resp w',
    upload sf csv_parse
      (UploadRequest (Some s) part objectName (VStr (js "upsert"))
         externalIdField now) w = (inr resp, w') ∧
    (status resp = 400 ∨ status resp = 500) ∧
    (content resp = HtmlErrorPage ∨ ∃ msg, content resp = JsonError msg) ∧
    calls w' = calls w.
Proof.
  intros Hext. rewrite upload_unfold.
  cbn [req_csvFile req_session req_now req_objectName req_operation
       req_externalIdField].
  destruct part as [part|]; [|eexists _, _; split_and!; eauto].
  destruct (fileFilter part); [|eexists _, _; split_and!; eauto]. cbv zeta.
  destruct (csv_parse (data part)).2; [eexists _, _; split_and!; eauto|].
  case_decide; [eexists _, _; split_and!; eauto|].
  rewrite perform_unfold, Hext.
  rewrite decide_False by done. rewrite decide_False by done.
  rewrite decide_True by done.
  eexists _, _; split_and!; eauto.
Qed.

Lemma upsert_requires_externalIdField_witness :
  truthy VUndefined = false ∧
  ∃ resp w',
    upload sample_org three_rows
      (UploadRequest (Some sample_session) (Some contacts_csv)
         (VStr (js "Contact")) (VStr (js "upsert")) VUndefined 1700000000000)
      fresh = (inr resp, w') ∧
    (status resp = 400 ∨ status resp = 500) ∧
    (content resp = HtmlErrorPage ∨ ∃ msg, content resp = JsonError msg) ∧
    calls w' = calls fresh.
Proof.
  split; [reflexivity|].
  apply (upsert_requires_externalIdField sample_org three_rows). reflexivity.
Defined.

(** C10.  For an authenticated upload of an accepted file whose batch is not
    empty, with operation insert, update, or upsert with an external id
    field, exactly one remote call is made, and it carries [objectName] as
    the request supplied it, whatever its value (absent and empty
    included). *)
Theorem objectName_passed_through (sf : adapter)
    (csv_parse : jsstring → list row * option exn) (s : salesforce)
    (part : file_part) (objectName operation externalIdField : value)
    (now : N) (w : world) :
  fileFilter part = true →
  (csv_parse (data part)).2 = None →
  collect_records (csv_parse (data part)).1 ≠ [] →
  operation = VStr (js "insert") ∨ operation = VStr (js "update") ∨
    (operation = VStr (js "upsert") ∧ truthy externalIdField = true) →
  let conn := Connection (instanceUrl s) (accessToken s) in
  let records := collect_records (csv_parse (data part)).1 in
  ∃ resp w' call,
    upload sf csv_parse
      (UploadRequest (Some s) (Some part) objectName operation
         externalIdField now) w = (inr resp, w') ∧
    calls w' = calls w ++ [call] ∧
    (operation = VStr (js "insert") → call = Create conn objectName records) ∧
    (operation = VStr (js "update") → call = Update conn objectName records) ∧
    (operation = VStr (js "upsert") →
     call = Upsert conn objectName records externalIdField).
Proof.
  intros Hf Hend Hne Hop conn records. rewrite upload_unfold.
  cbn [req_csvFile req_session req_now req_objectName req_operation
       req_externalIdField].
  rewrite Hf, Hend. cbv zeta. fold records conn.
  rewrite decide_False by (by intros ?%List.length_zero_iff_nil).
  rewrite perform_unfold. cbn [files calls].
  destruct Hop as [->|[->|[-> Hext]]].
  - rewrite decide_True by done.
    destruct (create sf conn objectName records);
      eexists _, _, _; split_and!; try reflexivity; done.
  - rewrite decide_False by done. rewrite decide_True by done.
    destruct (update sf conn objectName records);
      eexists _, _, _; split_and!; try reflexivity; done.
  - rewrite decide_False by done. rewrite decide_False by done.
    rewrite decide_True by done. rewrite Hext.
    destruct (upsert sf conn objectName records externalIdField);
      eexists _, _, _; split_and!; try reflexivity; done.
Qed.

Lemma objectName_passed_through_witness :
  fileFilter contacts_csv = true ∧
  (three_rows (data contacts_csv)).2 = None ∧
  collect_records (three_rows (data contacts_csv)).1 ≠ [] ∧
  ∃ resp w' call,
    upload offline three_rows
      (UploadRequest (Some sample_session) (Some contacts_csv) VUndefined
         (VStr (js "insert")) VUndefined 1700000000000) fresh
      = (inr resp, w') ∧
    calls w' = calls fresh ++ [call] ∧
    call = Create (Connection (instanceUrl sample_session)
                     (accessToken sample_session))
             VUndefined (collect_records (three_rows (data contacts_csv)).1).
Proof.
  split_and!; [reflexivity|reflexivity|by vm_compute|].
  destruct (objectName_passed_through offline three_rows sample_session
              contacts_csv VUndefined (VStr (js "insert")) VUndefined
              1700000000000 fresh)
    as (resp & w' & call & Hrun & Hcalls & Hinsert & _).
  - reflexivity.
  - reflexivity.
  - by vm_compute.
  - by left.
  - exists resp, w', call. split_and!; [done|done|]. by apply Hinsert.
Defined.



(** ** The claims about [POST /api/auth/session] *)

(** C7.  When [sessionId] or [instanceUrl] is missing from the body (or is
    any other falsy value) the answer is 400, the session is left as it was
    and the world is unchanged: no remote call is made. *)
Theorem auth_session_requires_both (sf : adapter)
    (sessionId instanceUrl : value) (sess : option salesforce) (w : world) :
  truthy sessionId = false ∨ truthy instanceUrl = false →
  auth_session sf sessionId instanceUrl sess w
  = (inr (Response 400
            (JsonError (js "Session ID and Instance URL are required")), sess),
     w).
Proof.
  intros Hmissing. unfold auth_session.
  by destruct Hmissing as [-> | ->]; [|rewrite orb_true_r].
Qed.

Lemma auth_session_requires_both_witness :
  (truthy (VStr (js "00D!AQ")) = false ∨ truthy VUndefined = false) ∧
  auth_session sample_org (VStr (js "00D!AQ")) VUndefined None fresh
  = (inr (Response 400
            (JsonError (js "Session ID and Instance URL are required")), None),
     fresh).
Proof.
  split; [by right|].
  apply (auth_session_requires_both sample_org). by right.
Defined.

(** C8.  With both parameters present, a failed identity check is answered
    401 with a fixed message and leaves the session as it was; two runs that
    differ only in the error of the identity check give the same result. *)
Theorem auth_session_failure_is_generic (sf1 sf2 : adapter)
    (sessionId instanceUrl : value) (sess : option salesforce) (w : world)
    (e1 e2 : exn) :
  truthy sessionId = true →
  truthy instanceUrl = true →
  identity sf1 (Connection instanceUrl sessionId) = inl e1 →
  identity sf2 (Connection instanceUrl sessionId) = inl e2 →
  auth_session sf1 sessionId instanceUrl sess w
  = auth_session sf2 sessionId instanceUrl sess w ∧
  (auth_session sf1 sessionId instanceUrl sess w).1
  = inr (Response 401
           (JsonError (js "Invalid session ID or instance URL. Please check your credentials.")),
         sess).
Proof.
  intros Hs Hi H1 H2. unfold auth_session. rewrite Hs, Hi.
  cbv [negb orb try_catch mbind io_bind remote]. by rewrite H1, H2.
Qed.

Lemma auth_session_failure_is_generic_witness :
  auth_session offline (VStr (js "00D!AQ")) (VStr (js "https://x")) None fresh
  = auth_session three_objects (VStr (js "00D!AQ")) (VStr (js "https://x"))
      None fresh ∧
  (auth_session offline (VStr (js "00D!AQ")) (VStr (js "https://x")) None
     fresh).1
  = inr (Response 401
           (JsonError (js "Invalid session ID or instance URL. Please check your credentials.")),
         None).
Proof.
  apply (auth_session_failure_is_generic offline three_objects _ _ None fresh
           (Error (js "connect ECONNREFUSED"))
           (Error (js "INVALID_SESSION_ID")));
    reflexivity.
Defined.

(** ** Sorting *)

Section sort_facts.
Context {A : Type} (comparefn : A → A → Z).

Lemma sort_insert_Permutation x l : sort_insert comparefn x l ≡ₚ x :: l.
Proof.
  induction l as [|y l IH]; simpl; [done|].
  case_decide; [done|]. rewrite IH. apply Permutation_swap.
Qed.

Lemma sort_Permutation l : sort comparefn l ≡ₚ l.
Proof.
  induction l as [|x l IH]; simpl; [done|].
  by rewrite sort_insert_Permutation, IH.
Qed.

(** The comparator is consistent: it never puts two elements each strictly
    after the other, and "not after" is transitive. *)
Hypothesis asymmetric : ∀ a b, 0 < comparefn a b → comparefn b a ≤ 0.
Hypothesis transitive :
  ∀ a b c, comparefn a b ≤ 0 → comparefn b c ≤ 0 → comparefn a c ≤ 0.

Lemma sort_insert_sorted x l :
  StronglySorted (λ a b, comparefn a b ≤ 0) l →
  StronglySorted (λ a b, comparefn a b ≤ 0) (sort_insert comparefn x l).
Proof.
  induction 1 as [|y l Hl IH Hy]; simpl.
  - by repeat constructor.
  - case_decide as Hxy.
    + constructor; [by constructor|]. constructor; [done|].
      eapply Forall_impl; [exact Hy|]. intros z Hz. by eapply transitive.
    + constructor; [done|].
      rewrite sort_insert_Permutation. constructor; [|done].
      apply asymmetric. lia.
Qed.

Lemma sort_sorted l :
  StronglySorted (λ a b, comparefn a b ≤ 0) (sort comparefn l).
Proof.
  induction l as [|x l IH]; simpl; [constructor|].
  by apply sort_insert_sorted.
Qed.
End sort_facts.

Lemma code_unit_compare_asymmetric a b :
  0 < code_unit_compare a b → code_unit_compare b a ≤ 0.
Proof.
  revert b. induction a as [|x a IH]; intros [|y b]; simpl; try lia.
  repeat case_decide; try lia. apply IH.
Qed.

Lemma code_unit_compare_transitive a b c :
  code_unit_compare a b ≤ 0 → code_unit_compare b c ≤ 0 →
  code_unit_compare a c ≤ 0.
Proof.
  revert b c. induction a as [|x a IH]; intros [|y b] [|z c]; simpl; try lia.
  repeat case_decide; try lia. apply IH.
Qed.

(** ** The claim about [GET /api/salesforce/objects] *)

(** C9.  For an authenticated request whose global describe succeeds, under a
    consistent [localeCompare], the answer is 200 with a list that holds
    exactly the createable and updateable objects of the describe, each as
    [{name, label, custom}], in ascending order of [label] under
    [localeCompare]; the describe is the only remote call. *)
Theorem objects_filtered_and_sorted (sf : adapter)
    (localeCompare : jsstring → jsstring → Z) (s : salesforce) (w : world)
    (sobjects : list sobject) :
  (∀ a b, 0 < localeCompare a b → localeCompare b a ≤ 0) →
  (∀ a b c, localeCompare a b ≤ 0 → localeCompare b c ≤ 0 →
            localeCompare a c ≤ 0) →
  describeGlobal sf (Connection (instanceUrl s) (accessToken s))
    = inr sobjects →
  ∃ listed,
    objects sf localeCompare (Some s) w
    = (inr (Response 200 (JsonObjects listed)),
       World (files w)
         (calls w ++
          [DescribeGlobal (Connection (instanceUrl s) (accessToken s))])) ∧
    listed ≡ₚ
      (λ obj, ObjectSummary (sobject_name obj) (sobject_label obj)
                (sobject_custom obj))
      <$> filter (λ obj, sobject_createable obj = true ∧
                         sobject_updateable obj = true) sobjects ∧
    StronglySorted (λ a b, localeCompare (label a) (label b) ≤ 0) listed.
Proof.
  intros Hasym Htrans Hdescribe. eexists. split_and!.
  - unfold objects. cbv [try_catch mbind io_bind remote].
    rewrite Hdescribe. reflexivity.
  - rewrite sort_Permutation.
    rewrite (list_filter_iff (λ obj, sobject_createable obj
                                      && sobject_updateable obj)
               (λ obj, sobject_createable obj = true ∧
                       sobject_updateable obj = true)); [done|].
    intros obj. by rewrite andb_True, !Is_true_true.
  - apply (sort_sorted (λ a b, localeCompare (label a) (label b))).
    + intros a b. apply Hasym.
    + intros a b c. apply Htrans.
Qed.

Lemma objects_filtered_and_sorted_witness :
  ∃ listed,
    objects three_objects code_unit_compare (Some sample_session) fresh
    = (inr (Response 200 (JsonObjects listed)),
       World (files fresh)
         (calls fresh ++
          [DescribeGlobal (Connection (instanceUrl sample_session)
                             (accessToken sample_session))])) ∧
    listed ≡ₚ
      (λ obj, ObjectSummary (sobject_name obj) (sobject_label obj)
                (sobject_custom obj))
      <$> filter (λ obj, sobject_createable obj = true ∧
                         sobject_updateable obj = true)
            [ SObject (js "Contact") (js "Contact") false true true;
              SObject (js "Account") (js "Account") false true true;
              SObject (js "Audit__c") (js "Audit") true true false ] ∧
    StronglySorted (λ a b, code_unit_compare (label a) (label b) ≤ 0) listed.
Proof.
  apply (objects_filtered_and_sorted three_objects code_unit_compare
           sample_session fresh).
  - apply code_unit_compare_asymmetric.
  - apply code_unit_compare_transitive.
  - reflexivity.
Defined.

Example objects_sample :
  (objects three_objects code_unit_compare (Some sample_session) fresh).1
  = inr (Response 200
           (JsonObjects [ ObjectSummary (js "Account") (js "Account") false;
                          ObjectSummary (js "Contact") (js "Contact") false ])).
Proof. reflexivity. Qed.

(** * Further properties of the code *)

(** ** [trim] and the records of a batch *)

Lemma trimStart_head s c s' : trimStart s = c :: s' → is_js_space c = false.
Proof.
  induction s as [|x s IH]; simpl; [done|].
  destruct (is_js_space x) eqn:Hx; [done|]. by intros [= <- _].
Qed.

Lemma trimStart_fixed s :
  (∀ c s', s = c :: s' → is_js_space c = false) → trimStart s = s.
Proof. destruct s as [|c s]; simpl; [done|]. intros H. by rewrite (H c s). Qed.

Lemma trimStart_suffix s : trimStart s `suffix_of` s.
Proof.
  induction s as [|x s IH]; simpl; [done|].
  destruct (is_js_space x); [by apply suffix_cons_r|done].
Qed.

(** Trimming twice is trimming once. *)
Lemma trim_idemp s : trim (trim s) = trim s.
Proof.
  unfold trim.
  set (a := trimStart s). set (b := trimStart (reverse a)).
  assert (Hb : trimStart b = b).
  { apply trimStart_fixed. intros c s' Hc. by apply (trimStart_head (reverse a) c s'). }
  assert (Ha : trimStart (reverse b) = reverse b).
  { apply trimStart_fixed. intros c s' Hc.
    destruct (trimStart_suffix (reverse a)) as [k Hk]. fold b in Hk.
    apply (f_equal reverse) in Hk.
    rewrite reverse_involutive, reverse_app, Hc in Hk.
    apply (trimStart_head s c (s' ++ reverse k)). by fold a. }
  by rewrite Ha, reverse_involutive, Hb.
Qed.

Lemma collect_records_elem rows cleanRow :
  cleanRow ∈ collect_records rows →
  ∃ r, r ∈ rows ∧ cleanRow = cleanRow_of r ∧ cleanRow ≠ ∅.
Proof.
  rewrite collect_records_concat. intros Hin.
  apply list_elem_of_In, in_concat in Hin as (batch & Hbatch & Hin).
  apply list_elem_of_In in Hbatch, Hin.
  apply list_elem_of_fmap in Hbatch as (r & -> & Hr).
  exists r. unfold on_data in Hin. case_decide as Hsize; [|by inversion Hin].
  apply list_elem_of_singleton in Hin as ->. split_and!; [done..|].
  intros He. rewrite He, map_size_empty in Hsize. lia.
Qed.

(** X1.  Every record of a batch has at least one field; each of its field
    names is trimmed (trimming it again changes nothing) and comes from a
    header of the row, and none of its values is null, undefined or the empty
    string. *)
Theorem batch_records_clean (rows : list row) (cleanRow : record)
    (k : jsstring) (v : value) :
  cleanRow ∈ collect_records rows →
  (0 < size cleanRow)%nat ∧
  (cleanRow !! k = Some v →
   trim k = k ∧ non_empty v = true ∧
   v ≠ VNull ∧ v ≠ VUndefined ∧ v ≠ VStr [] ∧
   ∃ r key, r ∈ rows ∧ (key, v) ∈ r ∧ k = trim key).
Proof.
  intros (r & Hr & -> & Hne)%collect_records_elem. split.
  - apply map_size_non_empty_iff in Hne. lia.
  - intros [_ (key & Hin & <- & Hv)%last_written_inv]%cleanRow_of_lookup.
    split_and!; [apply trim_idemp|done|by intros ->..|by exists r, key].
Qed.

Lemma batch_records_clean_witness :
  ({[ js "Email" := VStr (js "b@x.com") ]} : record)
    ∈ collect_records sample_rows ∧
  (0 < size ({[ js "Email" := VStr (js "b@x.com") ]} : record))%nat.
Proof.
  assert (H : ({[ js "Email" := VStr (js "b@x.com") ]} : record)
                ∈ collect_records sample_rows).
  { vm_compute. right. left. }
  split; [exact H|].
  exact (proj1 (batch_records_clean sample_rows _ (js "Email")
                  (VStr (js "b@x.com")) H)).
Defined.

(** X2.  Cleaning is idempotent: the listener run on the fields of a record
    it produced gives that record back. *)
Theorem cleanRow_of_idemp (r : row) :
  cleanRow_of (map_to_list (cleanRow_of r)) = cleanRow_of r.
Proof.
  assert (Hfield : ∀ k v, cleanRow_of r !! k = Some v →
            k ≠ js "__proto__" ∧ trim k = k ∧ non_empty v = true).
  { intros k v [Hk (key & _ & <- & Hv)%last_written_inv]%cleanRow_of_lookup.
    split_and!; [done|apply trim_idemp|done]. }
  apply map_eq. intros k. apply option_eq. intros v.
  rewrite cleanRow_of_lookup_NoDup.
  - split.
    + intros (_ & key & Hin%elem_of_map_to_list & <- & _).
      destruct (Hfield _ _ Hin) as (_ & Htrim & _). by rewrite Htrim.
    + intros Hl. destruct (Hfield _ _ Hl) as (Hk & Htrim & Hv).
      split; [done|]. exists k. by rewrite elem_of_map_to_list.
  - assert (Hid : trim ∘ fst <$> map_to_list (cleanRow_of r)
                  = (map_to_list (cleanRow_of r)).*1).
    { apply Forall_fmap_ext, Forall_forall.
      intros [key v'] Hin%elem_of_map_to_list. simpl.
      by destruct (Hfield _ _ Hin) as (_ & ? & _). }
    rewrite Hid. apply NoDup_fst_map_to_list.
Qed.

Lemma three_rows_records csvData :
  collect_records (three_rows csvData).1 ≠ [].
Proof. intros H%(f_equal length). vm_compute in H. discriminate H. Qed.

(** X3.  When the parser reports an error on an accepted file of an
    authenticated upload, the answer is 500 with the message of that error,
    whatever rows were emitted before it and whatever the operation; the
    staged file is removed and no remote call is made. *)
Theorem upload_parse_error (sf : adapter)
    (csv_parse : jsstring → list row * option exn) (s : salesforce)
    (part : file_part) (objectName operation externalIdField : value)
    (now : N) (w : world) (e : exn) :
  fileFilter part = true →
  (csv_parse (data part)).2 = Some e →
  upload sf csv_parse
    (UploadRequest (Some s) (Some part) objectName operation externalIdField
       now) w
  = (inr (Response 500 (JsonError (message e))),
     World (delete (staged_path now part) (files w)) (calls w)).
Proof.
  intros Hf Herr. rewrite upload_unfold.
  cbn [req_csvFile req_session req_now]. by rewrite Hf, Herr.
Qed.

Lemma upload_parse_error_witness :
  fileFilter contacts_csv = true ∧
  (broken_after_one_row (data contacts_csv)).2
    = Some (Error (js "Invalid Record Length")) ∧
  upload sample_org broken_after_one_row
    (UploadRequest (Some sample_session) (Some contacts_csv)
       (VStr (js "Contact")) (VStr (js "insert")) VUndefined 1700000000000)
    fresh
  = (inr (Response 500 (JsonError (js "Invalid Record Length"))),
     World (delete (staged_path 1700000000000 contacts_csv) (files fresh))
       (calls fresh)).
Proof.
  split_and!; [reflexivity..|].
  apply (upload_parse_error sample_org broken_after_one_row sample_session
           contacts_csv _ _ _ _ fresh (Error (js "Invalid Record Length")));
    reflexivity.
Defined.

(** X4.  When the remote create, update or upsert of an upload is rejected,
    the answer is 500 with the message of the rejection, unchanged; the
    staged file is removed and that call is the only one made. *)
Theorem upload_remote_rejection (sf : adapter)
    (csv_parse : jsstring → list row * option exn) (s : salesforce)
    (part : file_part) (objectName operation externalIdField : value)
    (now : N) (w : world) (e : exn) :
  let conn := Connection (instanceUrl s) (accessToken s) in
  let records := collect_records (csv_parse (data part)).1 in
  fileFilter part = true →
  (csv_parse (data part)).2 = None →
  records ≠ [] →
  (operation = VStr (js "insert") ∧
   create sf conn objectName records = inl e) ∨
  (operation = VStr (js "update") ∧
   update sf conn objectName records = inl e) ∨
  (operation = VStr (js "upsert") ∧ truthy externalIdField = true ∧
   upsert sf conn objectName records externalIdField = inl e) →
  ∃ call,
    upload sf csv_parse
      (UploadRequest (Some s) (Some part) objectName operation
         externalIdField now) w
    = (inr (Response 500 (JsonError (message e))),
       World (delete (staged_path now part) (files w)) (calls w ++ [call])).
Proof.
  intros conn records Hf Hend Hne Hop. rewrite upload_unfold.
  cbn [req_csvFile req_session req_now req_objectName req_operation
       req_externalIdField].
  rewrite Hf, Hend. cbv zeta. fold records conn.
  rewrite decide_False by (by intros ?%List.length_zero_iff_nil).
  rewrite perform_unfold. cbn [files calls].
  destruct Hop as [[-> Hres]|[[-> Hres]|(-> & Hext & Hres)]].
  - rewrite decide_True by done. rewrite Hres. by eexists.
  - rewrite decide_False by done. rewrite decide_True by done.
    rewrite Hres. by eexists.
  - rewrite decide_False by done. rewrite decide_False by done.
    rewrite decide_True by done. rewrite Hext, Hres. by eexists.
Qed.

Lemma upload_remote_rejection_witness :
  ∃ call,
    upload offline three_rows
      (UploadRequest (Some sample_session) (Some contacts_csv)
         (VStr (js "Contact")) (VStr (js "insert")) VUndefined 1700000000000)
      fresh
    = (inr (Response 500 (JsonError (js "connect ECONNREFUSED"))),
       World (delete (staged_path 1700000000000 contacts_csv) (files fresh))
         (calls fresh ++ [call])).
Proof.
  apply (upload_remote_rejection offline three_rows sample_session
           contacts_csv (VStr (js "Contact")) (VStr (js "insert")) VUndefined
           1700000000000 fresh (Error (js "connect ECONNREFUSED")));
    [reflexivity|reflexivity|apply three_rows_records|].
  left. split; reflexivity.
Defined.

(** X5.  An operation other than insert, update and upsert (a missing one
    included) is refused only after the file was parsed and found to hold
    records: the answer is then 500 with ['Invalid operation'], the staged
    file is removed and no remote call is made. *)
Theorem upload_invalid_operation (sf : adapter)
    (csv_parse : jsstring → list row * option exn) (s : salesforce)
    (part : file_part) (objectName operation externalIdField : value)
    (now : N) (w : world) :
  fileFilter part = true →
  (csv_parse (data part)).2 = None →
  collect_records (csv_parse (data part)).1 ≠ [] →
  operation ≠ VStr (js "insert") →
  operation ≠ VStr (js "update") →
  operation ≠ VStr (js "upsert") →
  upload sf csv_parse
    (UploadRequest (Some s) (Some part) objectName operation externalIdField
       now) w
  = (inr (Response 500 (JsonError (js "Invalid operation"))),
     World (delete (staged_path now part) (files w)) (calls w)).
Proof.
  intros Hf Hend Hne Hi Hu Hp. rewrite upload_unfold.
  cbn [req_csvFile req_session req_now req_objectName req_operation
       req_externalIdField].
  rewrite Hf, Hend. cbv zeta.
  rewrite decide_False by (by intros ?%List.length_zero_iff_nil).
  rewrite perform_unfold. by rewrite !decide_False by done.
Qed.

Lemma upload_invalid_operation_witness :
  upload sample_org three_rows
    (UploadRequest (Some sample_session) (Some contacts_csv)
       (VStr (js "Contact")) VUndefined VUndefined 1700000000000) fresh
  = (inr (Response 500 (JsonError (js "Invalid operation"))),
     World (delete (staged_path 1700000000000 contacts_csv) (files fresh))
       (calls fresh)).
Proof.
  apply (upload_invalid_operation sample_org three_rows);
    [reflexivity|reflexivity|apply three_rows_records|done..].
Defined.

Lemma collect_records_non_empty rows :
  Forall (λ cleanRow : record, cleanRow ≠ ∅) (collect_records rows).
Proof.
  apply Forall_forall. by intros cleanRow (_ & _ & _ & ?)%collect_records_elem.
Qed.

Section upload_invariants.
Context (sf : adapter) (csv_parse : jsstring → list row * option exn).

(** Every case of the route at once: the cases of [upload_unfold] and of
    [perform_unfold], each handed to [tac]. *)
Ltac upload_cases req tac :=
  rewrite upload_unfold;
  destruct (req_csvFile req) eqn:?;
    [destruct (fileFilter _) eqn:?|];
    destruct (req_session req) eqn:?;
    cbv zeta beta;
    try (destruct (csv_parse _).2 eqn:?;
         [|case_decide;
           [|rewrite perform_unfold; cbn [files calls];
             repeat case_decide;
             try (destruct (truthy (req_externalIdField req)) eqn:?);
             try (destruct (create _ _ _ _) eqn:?);
             try (destruct (update _ _ _ _) eqn:?);
             try (destruct (upsert _ _ _ _ _) eqn:?)]]);
  tac.

(** X6.  Whenever the route answers, the status is 200, 400, 401 or 500;
    401 is given only to a request without a session, 400 only to a request
    with a session and no file, and 200 only to a request with a session and
    a file that passed the upload filter. *)
Theorem upload_status_only_if (req : upload_request) (w w' : world)
    (resp : response) :
  upload sf csv_parse req w = (inr resp, w') →
  status resp ∈ [200; 400; 401; 500] ∧
  (status resp = 401 → req_session req = None) ∧
  (status resp = 400 →
   is_Some (req_session req) ∧ req_csvFile req = None) ∧
  (status resp = 200 →
   is_Some (req_session req) ∧
   ∃ part, req_csvFile req = Some part ∧ fileFilter part = true).
Proof.
  upload_cases req ltac:(intros [= <- <-]; cbn [status];
    split_and!; [set_solver|try done..]).
  all: try (intros _; split; [by eexists|done]).
  all: intros _; split; [by eexists|by eexists].
Qed.

(** X7.  Apart from the file it stages, the route leaves every file as it
    was. *)
Theorem upload_touches_only_staged_file (req : upload_request) (w : world)
    (p : jsstring) :
  (∀ part, req_csvFile req = Some part →
           p ≠ staged_path (req_now req) part) →
  files (upload sf csv_parse req w).2 !! p = files w !! p.
Proof.
  intros Hp.
  upload_cases req ltac:(cbn [snd files]; try done).
  all: try (rewrite lookup_delete_ne; [done|]; intros <-; by eapply Hp).
  all: rewrite lookup_insert_ne; [done|]; intros <-; by eapply Hp.
Qed.

(** X8.  The route makes at most one remote call.  When it makes one, the
    request is authenticated and carries a file, the call is a create, an
    update or an upsert with a truthy external id field, under the
    credentials of the session, and its batch is the non-empty list of the
    parsed records, none of them empty. *)
Theorem upload_at_most_one_call (req : upload_request) (w : world) :
  calls (upload sf csv_parse req w).2 = calls w ∨
  ∃ s part call,
    req_session req = Some s ∧ req_csvFile req = Some part ∧
    calls (upload sf csv_parse req w).2 = calls w ++ [call] ∧
    let conn := Connection (instanceUrl s) (accessToken s) in
    let records := collect_records (csv_parse (data part)).1 in
    records ≠ [] ∧ Forall (λ cleanRow : record, cleanRow ≠ ∅) records ∧
    (call = Create conn (req_objectName req) records ∨
     call = Update conn (req_objectName req) records ∨
     (call = Upsert conn (req_objectName req) records
               (req_externalIdField req) ∧
      truthy (req_externalIdField req) = true)).
Proof.
  upload_cases req ltac:(cbn [snd files calls]; try (by left)).
  all: right; eexists _, _, _; split_and!;
    [reflexivity|reflexivity|reflexivity
    |by intros ?%List.length_zero_iff_nil
    |apply collect_records_non_empty
    |eauto].
Qed.
End upload_invariants.

Lemma upload_status_only_if_witness :
  upload sample_org three_rows
    (UploadRequest (Some sample_session) None (VStr (js "Contact"))
       (VStr (js "insert")) VUndefined 1700000000000) fresh
  = (inr (Response 400 (JsonError (js "No file uploaded"))), fresh) ∧
  is_Some (Some sample_session) ∧ (None : option file_part) = None.
Proof.
  split; [reflexivity|].
  apply (upload_status_only_if sample_org three_rows
           (UploadRequest (Some sample_session) None (VStr (js "Contact"))
              (VStr (js "insert")) VUndefined 1700000000000)
           fresh fresh (Response 400 (JsonError (js "No file uploaded")))
           eq_refl).
  reflexivity.
Defined.

Lemma upload_touches_only_staged_file_witness :
  files (upload sample_org three_rows
           (UploadRequest (Some sample_session) (Some contacts_csv)
              (VStr (js "Contact")) (VStr (js "insert")) VUndefined
              1700000000000)
           earlier_upload).2 !! js "uploads/1600000000000-old.csv"
  = Some (js "Id,Name").
Proof.
  rewrite (upload_touches_only_staged_file sample_org three_rows).
  - reflexivity.
  - intros part [= <-]. by vm_compute.
Defined.

(** X9.  In the summary of an upload the counts follow the results, not the
    batch: [successful] and [failed] add up to the number of results the
    remote call returned, [errors] has one entry for each failure, and
    [totalRecords] is the number of parsed records whatever was returned. *)
Theorem summary_counts (records : list record) (result : save_results) :
  ∃ successful failed errors,
    summary records result
    = JsonUpload (length records) successful failed errors ∧
    (successful + failed)%nat = length (results_of result) ∧
    length errors = failed.
Proof.
  eexists _, _, _. split; [reflexivity|]. split.
  - rewrite <-(Permutation_length
                 (filter_app_complement (λ r, result_success r)
                    (results_of result))).
    rewrite length_app. f_equal. f_equal.
    apply list_filter_iff. intros r. by rewrite negb_True.
  - by rewrite length_fmap.
Qed.

(** One result object for a batch of three: the totals need not agree. *)
Example summary_of_single_result :
  summary (collect_records (three_rows []).1) (Single saved)
  = JsonUpload 3 1 0 [].
Proof. reflexivity. Qed.

(** ** The name of a staged file *)

Lemma js_inj s1 s2 : js s1 = js s2 → s1 = s2.
Proof.
  unfold js. intros Heq.
  rewrite <-(string_of_list_ascii_of_string s1),
          <-(string_of_list_ascii_of_string s2).
  f_equal. revert Heq.
  generalize (list_ascii_of_string s1), (list_ascii_of_string s2).
  induction l as [|a l IH]; intros [|b l']; simpl; try done.
  intros [= Hab Hl]. f_equal; [|by apply IH].
  by rewrite <-(ascii_N_embedding a), <-(ascii_N_embedding b), Hab.
Qed.

Lemma pretty_N_go_digits x s :
  Forall (λ c, 48 ≤ c ≤ 57)%N (js s) →
  Forall (λ c, 48 ≤ c ≤ 57)%N (js (pretty_N_go x s)).
Proof.
  revert s. induction (N.lt_wf_0 x) as [x _ IH]; intros s Hs.
  assert (x = 0 ∨ 0 < x)%N as [->|?] by lia.
  - by rewrite pretty_N_go_0.
  - rewrite pretty_N_go_step by done. apply IH; [by apply N.div_lt|].
    change (js (String ?a ?s)) with (N_of_ascii a :: js s).
    constructor; [|done].
    unfold pretty_N_char. repeat case_match; by vm_compute.
Qed.

Lemma pretty_N_digits (n : N) : Forall (λ c, 48 ≤ c ≤ 57)%N (js (pretty n)).
Proof.
  unfold pretty, pretty_N. case_decide.
  - repeat constructor; by vm_compute.
  - apply pretty_N_go_digits. constructor.
Qed.

Lemma app_cons_unique {A} (x : A) l1 r1 l2 r2 :
  x ∉ l1 → x ∉ l2 → l1 ++ x :: r1 = l2 ++ x :: r2 → l1 = l2 ∧ r1 = r2.
Proof.
  revert l2. induction l1 as [|y l1 IH]; intros [|z l2];
    rewrite ?not_elem_of_cons; intros H1 H2 Heq; simplify_eq/=.
  - done.
  - by destruct H2.
  - by destruct H1.
  - destruct (IH l2) as [-> ->]; [apply H1|apply H2|done|done].
Qed.

(** X10.  The name [storage.filename] gives a staged file determines the
    time stamp and the original name: two uploads that differ in either one
    are stored under different names. *)
Theorem filename_inj (now1 now2 : N) (part1 part2 : file_part) :
  filename now1 part1 = filename now2 part2 →
  now1 = now2 ∧ originalname part1 = originalname part2.
Proof.
  unfold filename. intros Heq.
  change (js "-") with [45%N] in Heq. simpl in Heq.
  apply app_cons_unique in Heq as [Hnow Hname].
  - split; [|done]. by apply (inj pretty), js_inj.
  - intros Hin. pose proof (pretty_N_digits now1) as Hd.
    rewrite Forall_forall in Hd. specialize (Hd _ Hin). lia.
  - intros Hin. pose proof (pretty_N_digits now2) as Hd.
    rewrite Forall_forall in Hd. specialize (Hd _ Hin). lia.
Qed.

Lemma filename_inj_witness :
  filename 1700000000000 contacts_csv = js "1700000000000-contacts.csv" ∧
  1700000000000%N = 1700000000000%N ∧
  originalname contacts_csv = originalname contacts_csv.
Proof.
  split; [reflexivity|].
  apply (filename_inj 1700000000000 1700000000000 contacts_csv contacts_csv).
  reflexivity.
Defined.

(** ** Further properties of the schema routes *)

(** X11.  When the describe call of an authenticated request is rejected,
    the object list and the field list answer 500 with a fixed message each,
    whatever the rejection says; the describe is the only remote call. *)
Theorem describe_failures_are_generic (sf : adapter)
    (localeCompare : jsstring → jsstring → Z) (s : salesforce) (w : world) :
  let conn := Connection (instanceUrl s) (accessToken s) in
  (∀ e, describeGlobal sf conn = inl e →
     objects sf localeCompare (Some s) w
     = (inr (Response 500 (JsonError (js "Failed to fetch Salesforce objects"))),
        World (files w) (calls w ++ [DescribeGlobal conn]))) ∧
  (∀ objectName e, describe sf conn objectName = inl e →
     object_fields sf localeCompare objectName (Some s) w
     = (inr (Response 500 (JsonError (js "Failed to fetch object fields"))),
        World (files w) (calls w ++ [Describe conn objectName]))).
Proof.
  intros conn. split.
  - intros e He. unfold objects. cbv [try_catch mbind io_bind remote].
    fold conn. by rewrite He.
  - intros objectName e He. unfold object_fields.
    cbv [try_catch mbind io_bind remote]. fold conn. by rewrite He.
Qed.

Lemma describe_failures_are_generic_witness :
  objects contact_org code_unit_compare (Some sample_session) fresh
  = (inr (Response 500 (JsonError (js "Failed to fetch Salesforce objects"))),
     World (files fresh)
       (calls fresh ++
        [DescribeGlobal (Connection (instanceUrl sample_session)
                           (accessToken sample_session))])) ∧
  object_fields contact_org code_unit_compare (js "Lead") (Some sample_session)
    fresh
  = (inr (Response 500 (JsonError (js "Failed to fetch object fields"))),
     World (files fresh)
       (calls fresh ++
        [Describe (Connection (instanceUrl sample_session)
                     (accessToken sample_session)) (js "Lead")])).
Proof.
  destruct (describe_failures_are_generic contact_org code_unit_compare
              sample_session fresh) as [Hobjects Hfields].
  split.
  - apply (Hobjects (Error (js "REQUEST_LIMIT_EXCEEDED"))). reflexivity.
  - apply (Hfields (js "Lead") (Error (js "NOT_FOUND"))). reflexivity.
Defined.

(** X12.  For an authenticated request whose describe succeeds, under a
    consistent [localeCompare], the field list is answered 200 and holds
    exactly the fields that are createable or updateable, each as
    [{name, label, type, required, picklistValues}] with [required] true
    exactly for a field that is neither nillable nor defaulted on create, in
    ascending order of [label]; the describe is the only remote call. *)
Theorem fields_filtered_and_sorted (sf : adapter)
    (localeCompare : jsstring → jsstring → Z) (objectName : jsstring)
    (s : salesforce) (w : world) (described : list field) :
  (∀ a b, 0 < localeCompare a b → localeCompare b a ≤ 0) →
  (∀ a b c, localeCompare a b ≤ 0 → localeCompare b c ≤ 0 →
            localeCompare a c ≤ 0) →
  describe sf (Connection (instanceUrl s) (accessToken s)) objectName
    = inr described →
  ∃ listed,
    object_fields sf localeCompare objectName (Some s) w
    = (inr (Response 200 (JsonFields listed)),
       World (files w)
         (calls w ++
          [Describe (Connection (instanceUrl s) (accessToken s)) objectName])) ∧
    listed ≡ₚ
      (λ f, FieldSummary (field_name f) (field_label f) (field_type f)
              (bool_decide (field_nillable f = false ∧
                            field_defaultedOnCreate f = false))
              (field_picklistValues f))
      <$> filter (λ f, field_createable f = true ∨ field_updateable f = true)
            described ∧
    StronglySorted (λ a b, localeCompare (fs_label a) (fs_label b) ≤ 0) listed.
Proof.
  intros Hasym Htrans Hdescribe. eexists. split_and!.
  - unfold object_fields. cbv [try_catch mbind io_bind remote].
    rewrite Hdescribe. reflexivity.
  - rewrite sort_Permutation.
    rewrite (list_filter_iff (λ f, field_createable f || field_updateable f)
               (λ f, field_createable f = true ∨ field_updateable f = true)).
    + apply reflexive_eq, list_fmap_ext. intros _ f _. f_equal.
      by destruct (field_nillable f), (field_defaultedOnCreate f).
    + intros f. by rewrite orb_True, !Is_true_true.
  - apply (sort_sorted (λ a b, localeCompare (fs_label a) (fs_label b))).
    + intros a b. apply Hasym.
    + intros a b c. apply Htrans.
Qed.

Lemma fields_filtered_and_sorted_witness :
  ∃ listed,
    object_fields contact_org code_unit_compare (js "Contact")
      (Some sample_session) fresh
    = (inr (Response 200 (JsonFields listed)),
       World (files fresh)
         (calls fresh ++
          [Describe (Connection (instanceUrl sample_session)
                       (accessToken sample_session)) (js "Contact")])) ∧
    listed ≡ₚ
      (λ f, FieldSummary (field_name f) (field_label f) (field_type f)
              (bool_decide (field_nillable f = false ∧
                            field_defaultedOnCreate f = false))
              (field_picklistValues f))
      <$> filter (λ f, field_createable f = true ∨ field_updateable f = true)
            contact_fields ∧
    StronglySorted
      (λ a b, code_unit_compare (fs_label a) (fs_label b) ≤ 0) listed.
Proof.
  apply (fields_filtered_and_sorted contact_org code_unit_compare
           (js "Contact") sample_session fresh contact_fields).
  - apply code_unit_compare_asymmetric.
  - apply code_unit_compare_transitive.
  - reflexivity.
Defined.

Example fields_sample :
  (object_fields contact_org code_unit_compare (js "Contact")
     (Some sample_session) fresh).1
  = inr (Response 200
           (JsonFields
              [ FieldSummary (js "Email") (js "Email") (js "email") false [];
                FieldSummary (js "LastName") (js "Last Name") (js "string")
                  true [] ])).
Proof. reflexivity. Qed.

(** X13.  The object list does not depend on the order of the describe:
    when no two described objects have labels that compare as equal, two
    describes that list the same objects in different orders give the same
    answer. *)
Theorem objects_order_independent (sf1 sf2 : adapter)
    (localeCompare : jsstring → jsstring → Z) (s : salesforce) (w : world)
    (described1 described2 : list sobject) :
  (∀ a b, 0 < localeCompare a b → localeCompare b a ≤ 0) →
  (∀ a b c, localeCompare a b ≤ 0 → localeCompare b c ≤ 0 →
            localeCompare a c ≤ 0) →
  (∀ a b, a ∈ described1 → b ∈ described1 →
          localeCompare (sobject_label a) (sobject_label b) ≤ 0 →
          localeCompare (sobject_label b) (sobject_label a) ≤ 0 → a = b) →
  describeGlobal sf1 (Connection (instanceUrl s) (accessToken s))
    = inr described1 →
  describeGlobal sf2 (Connection (instanceUrl s) (accessToken s))
    = inr described2 →
  described1 ≡ₚ described2 →
  objects sf1 localeCompare (Some s) w = objects sf2 localeCompare (Some s) w.
Proof.
  intros Hasym Htrans Hties H1 H2 Hperm.
  unfold objects. cbv [try_catch mbind io_bind remote]. rewrite H1, H2.
  cbv [mret io_ret]. do 4 f_equal.
  set (cmp := λ a b : object_summary, localeCompare (label a) (label b)).
  set (project := λ obj, ObjectSummary (sobject_name obj) (sobject_label obj)
                           (sobject_custom obj)).
  set (keep := λ obj, sobject_createable obj && sobject_updateable obj).
  apply (StronglySorted_unique_strong (λ a b, cmp a b ≤ 0)).
  - intros a b Ha Hb Hab Hba.
    rewrite sort_Permutation in Ha. rewrite sort_Permutation, <-Hperm in Hb.
    apply list_elem_of_fmap in Ha as (a' & -> & [_ Ha']%list_elem_of_filter).
    apply list_elem_of_fmap in Hb as (b' & -> & [_ Hb']%list_elem_of_filter).
    by rewrite (Hties a' b').
  - apply sort_sorted; [intros ??; apply Hasym|intros ???; apply Htrans].
  - apply sort_sorted; [intros ??; apply Hasym|intros ???; apply Htrans].
  - by rewrite !sort_Permutation, Hperm.
Qed.

Lemma code_unit_compare_ties a b :
  code_unit_compare a b ≤ 0 → code_unit_compare b a ≤ 0 → a = b.
Proof.
  revert b. induction a as [|x a IH]; intros [|y b]; simpl; try (done || lia).
  repeat case_decide; try lia. intros ??. f_equal; [lia|by apply IH].
Qed.

Lemma objects_order_independent_witness :
  objects three_objects code_unit_compare (Some sample_session) fresh
  = objects three_objects_reordered code_unit_compare (Some sample_session)
      fresh.
Proof.
  apply (objects_order_independent three_objects three_objects_reordered
           code_unit_compare sample_session fresh
           [ SObject (js "Contact") (js "Contact") false true true;
             SObject (js "Account") (js "Account") false true true;
             SObject (js "Audit__c") (js "Audit") true true false ]
           [ SObject (js "Account") (js "Account") false true true;
             SObject (js "Contact") (js "Contact") false true true;
             SObject (js "Audit__c") (js "Audit") true true false ]).
  - apply code_unit_compare_asymmetric.
  - apply code_unit_compare_transitive.
  - intros a b Ha Hb Hab Hba.
    pose proof (code_unit_compare_ties _ _ Hab Hba) as Hlabel.
    clear Hab Hba. rewrite !elem_of_cons, elem_of_nil in Ha, Hb.
    destruct Ha as [->|[->|[->|[]]]], Hb as [->|[->|[->|[]]]];
      reflexivity || discriminate Hlabel.
  - reflexivity.
  - reflexivity.
  - apply Permutation_swap.
Defined.

(** ** The session, from login to logout *)

(** X14.  A session-token login whose identity check succeeds is answered
    200 with the user info of the check, after that one remote call; the
    session then holds the token and the URL as they were sent, so that
    session-info hands both back unchanged and the status route reports the
    user as authenticated with method [session], neither making a remote
    call. *)
Theorem session_login_round_trip (sf : adapter)
    (sessionId instanceUrl : value) (sess : option salesforce) (w : world)
    (info : user_info) :
  truthy sessionId = true →
  truthy instanceUrl = true →
  identity sf (Connection instanceUrl sessionId) = inr info →
  ∃ sess' w',
    auth_session sf sessionId instanceUrl sess w
    = (inr (Response 200
              (JsonAuthenticated info
                 (js "Successfully authenticated with session ID")), sess'),
       w') ∧
    w' = World (files w)
           (calls w ++ [Identity (Connection instanceUrl sessionId)]) ∧
    session_info sess' w'
    = (inr (Response 200 (JsonSessionInfo sessionId instanceUrl session)), w') ∧
    auth_status sess' = JsonStatus true (Some info) (Some session).
Proof.
  intros Hs Hi Hid. unfold auth_session. rewrite Hs, Hi.
  cbv [negb orb try_catch mbind io_bind remote]. rewrite Hid.
  by eexists _, _.
Qed.

Lemma session_login_round_trip_witness :
  ∃ sess' w',
    auth_session sample_org (VStr (js "00D!AQ")) (VStr (js "https://x")) None
      fresh
    = (inr (Response 200
              (JsonAuthenticated [(js "username", VStr (js "alice@x.com"))]
                 (js "Successfully authenticated with session ID")), sess'),
       w') ∧
    w' = World (files fresh)
           (calls fresh ++
            [Identity (Connection (VStr (js "https://x"))
                         (VStr (js "00D!AQ")))]) ∧
    session_info sess' w'
    = (inr (Response 200
              (JsonSessionInfo (VStr (js "00D!AQ")) (VStr (js "https://x"))
                 session)), w') ∧
    auth_status sess'
    = JsonStatus true (Some [(js "username", VStr (js "alice@x.com"))])
        (Some session).
Proof.
  apply (session_login_round_trip sample_org); reflexivity.
Defined.

(** X15.  The OAuth callback always redirects.  When the code exchange
    succeeds it redirects to [/?auth=success] and the session holds the
    token and URL of the connection with method [oauth], which session-info
    and the status route then report; when it fails it redirects to
    [/?auth=error] and leaves the session as it was, so that a session that
    was authenticated stays so. *)
Theorem oauth_callback_redirects (authorize : value → exn + authorized)
    (code : value) (sess : option salesforce) (w : world) :
  match authorize code with
  | inr conn =>
      ∃ sess',
        oauth_callback authorize code sess
        = (Redirect (js "/?auth=success"), sess') ∧
        session_info sess' w
        = (inr (Response 200
                  (JsonSessionInfo (oauth_accessToken conn)
                     (oauth_instanceUrl conn) oauth)), w) ∧
        auth_status sess'
        = JsonStatus true (Some (oauth_userInfo conn)) (Some oauth)
  | inl _ =>
      oauth_callback authorize code sess = (Redirect (js "/?auth=error"), sess)
  end.
Proof.
  unfold oauth_callback. destruct (authorize code) as [e|conn]; [done|].
  by eexists.
Qed.

(** X16.  Logging out answers [{success: true}] and empties the session,
    whatever it held: afterwards the status route reports the user as not
    authenticated, and session-info, the object list, the field list and an
    upload without a file answer 401 without any remote call. *)
Theorem logout_ends_session (sf : adapter)
    (csv_parse : jsstring → list row * option exn)
    (localeCompare : jsstring → jsstring → Z) (sess : option salesforce)
    (w : world) :
  ∃ sess',
    auth_logout sess = (JsonSuccess, sess') ∧
    auth_status sess' = JsonStatus false None None ∧
    session_info sess' w = (inr not_authenticated, w) ∧
    objects sf localeCompare sess' w = (inr not_authenticated, w) ∧
    (∀ objectName,
       object_fields sf localeCompare objectName sess' w
       = (inr not_authenticated, w)) ∧
    (∀ objectName operation externalIdField now,
       upload sf csv_parse
         (UploadRequest sess' None objectName operation externalIdField now) w
       = (inr not_authenticated, w)).
Proof. by eexists. Qed.

Example oauth_callback_failure_keeps_session :
  oauth_callback sample_authorize (VStr (js "expired")) (Some sample_session)
  = (Redirect (js "/?auth=error"), Some sample_session).
Proof. reflexivity. Qed.

Example oauth_callback_success :
  (oauth_callback sample_authorize (VStr (js "aPrx")) None).1
  = Redirect (js "/?auth=success").
Proof. reflexivity. Qed.

Lemma upload_authenticated_removes_file_witness :
  fileFilter contacts_csv = true ∧
  ∃ resp w',
    upload offline three_rows
      (UploadRequest (Some sample_session) (Some contacts_csv)
         (VStr (js "Contact")) (VStr (js "insert")) VUndefined 1700000000000)
      fresh = (inr resp, w') ∧
    files w' !! staged_path 1700000000000 contacts_csv = None.
Proof.
  split; [reflexivity|].
  apply (upload_authenticated_removes_file offline three_rows). reflexivity.
Defined.
